(** * The OpenAPI schema validator script

    A verification development for
    [bin/validate-openapi-specs/Sources/OpenAPISchemaValidator/validate.py].

    The script is a straight line of calls: it parses three command-line
    arguments, reads an OpenAPI document and a JSON document, validates the
    former against the OpenAPI 3.0 meta-schema, selects
    [components.schemas[<name>]] and validates the JSON document against it,
    then prints [OK]. Every failure is an exception that nothing catches.

    Definitions:
    - [PyString]: the few string operations of Python that are used;
    - [Argparse]: the parser the script configures at lines 27-35, following
      the control flow of CPython 3.11's [argparse] for that configuration;
    - [Py]: Python values, subscripting, exceptions and the monad in which
      the script runs (the calls made, the two output streams, and an
      exception or exit signal);
    - [Pointer]: references of the form [#/k1/.../kn] into a document;
    - [Validator]: the script itself, over an interface [Library] of the
      third-party functions it imports ([read_from_filename], [json.load],
      [validate_spec], [RefResolver.from_schema], [validate]);
    - [Reference]: a small executable instance of that interface.

    Properties follow: facts about the parser, and the behaviour of the
    script for every instance of the interface, each run once on the
    instance. *)

From Stdlib Require Import String Ascii List ZArith Bool Arith Lia.
Import ListNotations.
#[local] Set Warnings "-register-all".
Local Open Scope string_scope.
Local Open Scope list_scope.

(** ** Python string operations

    A [str] is held as the bytes of its UTF-8 encoding, which is how the
    command line and the files hold it. The tests below concern ASCII
    characters, whose bytes occur in UTF-8 only as themselves, except for
    the digits of [\d], which are decoded. *)

Module PyString.

(** [s.startswith(p)] *)
Definition startswith (s p : string) : bool := String.prefix p s.

(** [c in s] for a one-character [c] *)
Fixpoint contains (c : ascii) (s : string) : bool :=
  match s with
  | EmptyString => false
  | String a s' => Ascii.eqb a c || contains c s'
  end.

(** [s.split(c, 1)] when [c in s]: the text before the first [c] and the
    text after it. Without a [c] the second part is empty. *)
Fixpoint split1 (c : ascii) (s : string) : string * string :=
  match s with
  | EmptyString => (EmptyString, EmptyString)
  | String a s' =>
      if Ascii.eqb a c then (EmptyString, s')
      else let '(l, r) := split1 c s' in (String a l, r)
  end.

(** [s[:2]] and [s[2:]] *)
Definition take2 (s : string) : string := substring 0 2 s.
Definition drop2 (s : string) : string := substring 2 (String.length s - 2) s.

(** [s[1]] when it exists *)
Definition second (s : string) : option ascii := get 1 s.

(** The code points that [\d] matches in a [str] pattern: those of general
    category Nd in Unicode 14.0, the version CPython 3.11 carries, as
    inclusive ranges. *)
Definition decimal_ranges : list (N * N) :=
  [(48, 57); (1632, 1641); (1776, 1785); (1984, 1993); (2406, 2415);
   (2534, 2543); (2662, 2671); (2790, 2799); (2918, 2927); (3046, 3055);
   (3174, 3183); (3302, 3311); (3430, 3439); (3558, 3567); (3664, 3673);
   (3792, 3801); (3872, 3881); (4160, 4169); (4240, 4249); (6112, 6121);
   (6160, 6169); (6470, 6479); (6608, 6617); (6784, 6793); (6800, 6809);
   (6992, 7001); (7088, 7097); (7232, 7241); (7248, 7257); (42528, 42537);
   (43216, 43225); (43264, 43273); (43472, 43481); (43504, 43513);
   (43600, 43609); (44016, 44025); (65296, 65305); (66720, 66729);
   (68912, 68921); (69734, 69743); (69872, 69881); (69942, 69951);
   (70096, 70105); (70384, 70393); (70736, 70745); (70864, 70873);
   (71248, 71257); (71360, 71369); (71472, 71481); (71904, 71913);
   (72016, 72025); (72784, 72793); (73040, 73049); (73120, 73129);
   (92768, 92777); (92864, 92873); (93008, 93017); (120782, 120831);
   (123200, 123209); (123632, 123641); (125264, 125273);
   (130032, 130041)]%N.

Definition is_decimal (code_point : N) : bool :=
  existsb (fun '(lo, hi) => N.leb lo code_point && N.leb code_point hi)
    decimal_ranges.

(** Every character of [s] is a decimal digit. The bytes are read as UTF-8:
    [pending] continuation bytes are still due for the character begun,
    [acc] holds its bits so far, and [least] is the smallest code point
    its length may encode. Bytes that are not the UTF-8 encoding of a
    character (which Python keeps as lone surrogates) are no digits. *)
Fixpoint decimals (s : string) (pending : nat) (acc least : N) : bool :=
  match s with
  | EmptyString => Nat.eqb pending 0
  | String a s' =>
      let b := N_of_ascii a in
      match pending with
      | 0 =>
          if N.ltb b 128 then is_decimal b && decimals s' 0 0 0
          else if N.leb 194 b && N.leb b 223 then decimals s' 1 (b - 192) 128
          else if N.leb 224 b && N.leb b 239 then decimals s' 2 (b - 224) 2048
          else if N.leb 240 b && N.leb b 244 then decimals s' 3 (b - 240) 65536
          else false
      | S pending' =>
          if N.leb 128 b && N.leb b 191 then
            let acc' := (acc * 64 + (b - 128))%N in
            match pending' with
            | 0 => N.leb least acc' && is_decimal acc' && decimals s' 0 0 0
            | _ => decimals s' pending' acc' least
            end
          else false
      end
  end.

(** [\d*] matches all of [s] *)
Definition all_digits (s : string) : bool := decimals s 0 0 0.

(** The text a [$] anchor sees: one final newline does not count. *)
Fixpoint chomp (s : string) : string :=
  match s with
  | EmptyString => EmptyString
  | String a EmptyString => if Ascii.eqb a "010"%char then EmptyString else s
  | String a s' => String a (chomp s')
  end.

(** [re.match(r'^-\d+$|^-\d*\.\d+$', s)] *)
Definition negative_number (s : string) : bool :=
  match chomp s with
  | String "-"%char body =>
      (negb (String.eqb body "") && all_digits body)
      || (contains "."%char body
          && let '(int_part, frac) := split1 "."%char body in
             all_digits int_part && negb (String.eqb frac "") && all_digits frac)
  | _ => false
  end.

End PyString.

(** ** The command-line parser (validate.py, lines 27-35)

    [argparse.ArgumentParser(prog, description)] keeps the default
    [add_help=True], so the parser holds one optional action, help, under
    the option strings [-h] and [--help], and the three positional actions
    [spec], [json], [schema] added at lines 31-33 (each with [nargs=None],
    hence required and taking one argument string). *)

Module Argparse.
Import PyString.

Inductive action := HelpAction.

(** [parser._option_string_actions], in insertion order *)
Definition option_string_actions : list (string * action) :=
  [("-h", HelpAction); ("--help", HelpAction)].

(** [parser._get_positional_actions()], by [dest] *)
Definition positional_actions : list string := ["spec"; "json"; "schema"].

Definition find_option (option_string : string) : option action :=
  option_map snd
    (find (fun '(o, _) => String.eqb o option_string) option_string_actions).

(** What [_parse_optional] returns for an option string: the action (if the
    parser has one for it), the option string, and the explicit argument
    given in the same argument string. *)
Definition option_tuple : Type := option action * string * option string.

Inductive argument_error :=
| ambiguous_option (arg_string : string)
| ignored_explicit_argument (explicit_arg : string)
| arguments_required (dests : list string)
| unrecognized_arguments (extras : list string).

(** The value stored for a positional: a string, or (for any other number
    of argument strings) a list. *)
Inductive argval :=
| Str (s : string)
| Strs (l : list string).

Record Namespace := { spec : argval; json : argval; schema : argval }.

(** How [parse_args] ends: it returns the namespace, or the help action
    prints the help text on standard output and calls [exit(0)], or
    [parser.error] prints the usage and the message on standard error and
    calls [exit(2)]. *)
Inductive parsed :=
| Args (ns : Namespace)
| HelpExit
| ErrorExit (e : argument_error).

Definition starts_with_two_prefix_chars (s : string) : bool :=
  match s with
  | String "-" (String "-" _) => true
  | _ => false
  end.

(** [_get_option_tuples] *)
Definition _get_option_tuples (option_string : string) : list option_tuple :=
  if starts_with_two_prefix_chars option_string then
    let '(option_prefix, explicit_arg) :=
      if contains "="%char option_string
      then let '(p, e) := split1 "="%char option_string in (p, Some e)
      else (option_string, None) in
    flat_map
      (fun '(o, a) =>
         if startswith o option_prefix then [(Some a, o, explicit_arg)] else [])
      option_string_actions
  else
    let option_prefix := option_string in
    let short_option_prefix := take2 option_string in
    let short_explicit_arg := drop2 option_string in
    flat_map
      (fun '(o, a) =>
         if String.eqb o short_option_prefix then [(Some a, o, Some short_explicit_arg)]
         else if startswith o option_prefix then [(Some a, o, None)]
         else [])
      option_string_actions.

(** [_parse_optional]: [inr None] for an argument string meant as a
    positional, [inr (Some t)] for an option string, [inl] when the parser
    reports an ambiguous abbreviation. *)
Definition _parse_optional (arg_string : string)
  : argument_error + option option_tuple :=
  match arg_string with
  | EmptyString => inr None
  | String c _ =>
      if negb (Ascii.eqb c "-") then inr None
      else match find_option arg_string with
      | Some a => inr (Some (Some a, arg_string, None))
      | None =>
      if Nat.eqb (String.length arg_string) 1 then inr None
      else
        let by_equals :=
          if contains "="%char arg_string then
            let '(option_string, explicit_arg) := split1 "="%char arg_string in
            match find_option option_string with
            | Some a => Some (Some a, option_string, Some explicit_arg)
            | None => None
            end
          else None in
        match by_equals with
        | Some t => inr (Some t)
        | None =>
        match _get_option_tuples arg_string with
        | _ :: _ :: _ => inl (ambiguous_option arg_string)
        | [t] => inr (Some t)
        | [] =>
            if negative_number arg_string then inr None
            else if contains " "%char arg_string then inr None
            else inr (Some (None, arg_string, None))
        end end end
  end.

(** The pattern character of an argument string: ['A'] for an argument,
    ['O'] for an option string (kept with what [_parse_optional] found),
    ['-'] for the first [--]. *)
Inductive pat :=
| A
| O (t : option_tuple)
| Dash.

Definition token : Type := string * pat.

(** The first loop of [_parse_known_args]: every argument string after the
    first [--] is an argument. *)
Fixpoint arg_strings_pattern (arg_strings : list string)
  : argument_error + list token :=
  match arg_strings with
  | [] => inr []
  | arg_string :: rest =>
      if String.eqb arg_string "--"
      then inr ((arg_string, Dash) :: map (fun s => (s, A)) rest)
      else match _parse_optional arg_string with
           | inl e => inl e
           | inr r =>
               match arg_strings_pattern rest with
               | inl e => inl e
               | inr toks =>
                   inr ((arg_string, match r with None => A | Some t => O t end) :: toks)
               end
           end
  end.

(** What [consume_optional] does with one option string. *)
Inductive optional_step :=
| Extra              (* no action for it: the string joins [extras] *)
| Help               (* the help action is taken: it prints and exits *)
| Error (e : argument_error).

(** The body of the [while True] loop of [consume_optional] when an explicit
    argument is present. The help action has [nargs=0], so
    [match_argument(action, 'A')] is 0: a single-dash option string tries
    to read further single-dash options from the explicit argument, one
    character per round; anything else is an ignored explicit argument. *)
Fixpoint explicit_args (option_string explicit_arg : string) : optional_step :=
  match second option_string, explicit_arg with
  | Some c, String e0 new_explicit_arg =>
      if Ascii.eqb c "-" then Error (ignored_explicit_argument explicit_arg)
      else
        let option_string' := String "-" (String e0 EmptyString) in
        match find_option option_string' with
        | Some HelpAction =>
            match new_explicit_arg with
            | EmptyString => Help
            | _ => explicit_args option_string' new_explicit_arg
            end
        | None => Error (ignored_explicit_argument explicit_arg)
        end
  | _, _ => Error (ignored_explicit_argument explicit_arg)
  end.

Definition consume_optional (t : option_tuple) : optional_step :=
  match t with
  | (None, _, _) => Extra
  | (Some HelpAction, _, None) => Help
  | (Some HelpAction, option_string, Some explicit_arg) =>
      explicit_args option_string explicit_arg
  end.

(** [arg_strings.remove('--')], which drops the first [--] if there is one *)
Fixpoint remove_dashes (arg_strings : list string) : list string :=
  match arg_strings with
  | [] => []
  | s :: rest => if String.eqb s "--" then rest else s :: remove_dashes rest
  end.

(** [_get_values] for a positional with [nargs=None] and no [type] *)
Definition _get_values (arg_strings : list string) : argval :=
  match remove_dashes arg_strings with
  | [arg_string] => Str arg_string
  | l => Strs l
  end.

Fixpoint span_dash (toks : list token) : list string * list token :=
  match toks with
  | (s, Dash) :: rest => let '(d, r) := span_dash rest in (s :: d, r)
  | _ => ([], toks)
  end.

(** One group of the positionals' pattern (any dashes, one ['A'], any
    dashes), matched greedily at the head of the pattern: the argument
    strings it covers, and the rest. *)
Definition match_positional (toks : list token) : option (list string * list token) :=
  let '(before, r1) := span_dash toks in
  match r1 with
  | (s, A) :: r2 =>
      let '(after, r3) := span_dash r2 in Some (before ++ s :: after, r3)
  | _ => None
  end.

(** [consume_positionals]: [_match_arguments_partial] matches as many of the
    remaining positionals as the pattern allows, each takes its value from
    the argument strings of its group, and the matched positionals leave
    the list. Returns the values, the positionals left, the tokens left. *)
Fixpoint consume_positionals (positionals : list string) (toks : list token)
  : list argval * list string * list token :=
  match positionals with
  | [] => ([], [], toks)
  | dest :: positionals' =>
      match match_positional toks with
      | None => ([], positionals, toks)
      | Some (arg_strings, rest) =>
          let '(values, remaining, rest') := consume_positionals positionals' rest in
          (_get_values arg_strings :: values, remaining, rest')
      end
  end.

(** The pattern cut at its option strings: the tokens before each option
    string with that option string, and the tokens after the last one. *)
Fixpoint rounds (toks : list token)
  : list (list token * (string * option_tuple)) * list token :=
  match toks with
  | [] => ([], [])
  | (s, O t) :: rest =>
      let '(rs, last) := rounds rest in (([], (s, t)) :: rs, last)
  | tk :: rest =>
      match rounds rest with
      | ([], last) => ([], tk :: last)
      | ((seg, o) :: rs, last) => ((tk :: seg, o) :: rs, last)
      end
  end.

(** The end of [_parse_known_args] and of [parse_args]: a required action
    that was not seen is an error, then extra arguments are an error. *)
Definition finish (values : list argval) (positionals extras : list string) : parsed :=
  match positionals, values with
  | [], [v1; v2; v3] =>
      match extras with
      | [] => Args {| spec := v1; json := v2; schema := v3 |}
      | _ => ErrorExit (unrecognized_arguments extras)
      end
  | _, _ => ErrorExit (arguments_required positionals)
  end.

(** The main loop of [_parse_known_args] ("consume Positionals and
    Optionals alternately, until we have passed the last option string").
    A positional's pattern has no ['O'], so what [consume_positionals] can
    match before an option string lies before it: each round consumes the
    positionals before the next option string, sends what they left there
    to [extras], and consumes the option string. After the last round the
    positionals following the last option string are consumed. *)
Fixpoint consume (rs : list (list token * (string * option_tuple)))
    (last : list token) (values : list argval) (positionals extras : list string)
  : parsed :=
  match rs with
  | [] =>
      let '(vs, positionals', rest) := consume_positionals positionals last in
      finish (values ++ vs) positionals' (extras ++ map fst rest)
  | (seg, (arg_string, t)) :: rs' =>
      let '(vs, positionals', rest) := consume_positionals positionals seg in
      match consume_optional t with
      | Extra =>
          consume rs' last (values ++ vs) positionals'
            (extras ++ map fst rest ++ [arg_string])
      | Help => HelpExit
      | Error e => ErrorExit e
      end
  end.

(** [parser.parse_args()] on [sys.argv[1:]] *)
Definition parse_args (argv : list string) : parsed :=
  match arg_strings_pattern argv with
  | inl e => ErrorExit e
  | inr toks =>
      let '(rs, last) := rounds toks in
      consume rs last [] positional_actions []
  end.

(** *** What an argument list holds, as the parser reads it *)

Definition is_argument (tok : token) : bool :=
  match tok with (_, A) => true | _ => false end.

Definition is_option (tok : token) : bool :=
  match tok with (_, O _) => true | _ => false end.

Definition is_help (tok : token) : bool :=
  match tok with (_, O (Some HelpAction, _, _)) => true | _ => false end.

Definition tokens (argv : list string) : list token :=
  match arg_strings_pattern argv with
  | inr toks => toks
  | inl _ => []
  end.

Definition count_arguments (toks : list token) : nat :=
  List.length (filter is_argument toks).

(** The number of argument strings read as arguments *)
Definition positional_count (argv : list string) : nat :=
  count_arguments (tokens argv).

(** The number of argument strings read as option strings *)
Definition option_count (argv : list string) : nat :=
  List.length (filter is_option (tokens argv)).

(** Some argument string is read as the help option: [-h], [--help], an
    abbreviation of [--help], or one of these with an explicit argument. *)
Definition help_requested (argv : list string) : bool :=
  existsb is_help (tokens argv).

(** The option strings that name the help action: its two option strings
    and the abbreviations of the long one that [allow_abbrev] admits. *)
Definition help_option_strings : list string :=
  ["-h"; "--help"; "--hel"; "--he"; "--h"].

End Argparse.

(** ** Python values, exceptions and the process monad *)

Module Py.
Import Argparse.

(** What [json.load] and the YAML reader build: [None], [bool], [int],
    [float] (kept as its literal), [str], [list], and [dict] with string
    keys in insertion order. *)
Inductive value :=
| VNone
| VBool (b : bool)
| VInt (z : Z)
| VFloat (literal : string)
| VStr (s : string)
| VList (l : list value)
| VDict (d : list (string * value)).

Inductive exn :=
| KeyError (key : string)
| TypeError (message : string)
| OSError (filename : string)
| Exception (class message : string).   (* raised inside a library *)

(** [d[key]] on the items of a [dict], [None] when the key is absent *)
Fixpoint dict_get (key : string) (d : list (string * value)) : option value :=
  match d with
  | [] => None
  | (k, v) :: d' => if String.eqb k key then Some v else dict_get key d'
  end.

(** [container[key]] where [key] is a command-line value or a string
    literal: a [dict] raises [KeyError] for an absent key and [TypeError]
    for an unhashable one; no other value can be subscripted by it. *)
Definition getitem (container : value) (key : argval) : exn + value :=
  match container, key with
  | VDict d, Str k =>
      match dict_get k d with
      | Some v => inr v
      | None => inl (KeyError k)
      end
  | VDict _, Strs _ => inl (TypeError "unhashable type: 'list'")
  | VList _, _ => inl (TypeError "list indices must be integers or slices")
  | VStr _, _ => inl (TypeError "string indices must be integers")
  | _, _ => inl (TypeError "object is not subscriptable")
  end.

(** The calls the script makes, in the order it makes them *)
Inductive call :=
| call_parse_args (argv : list string)
| call_read_from_filename (filename : argval)
| call_open (file : argval)
| call_json_load
| call_validate_spec (spec : value)
| call_from_schema (schema : value)
| call_getitem (container : value) (key : argval)
| call_validate (instance schema : value)
| call_print (text : string).

Inductive out_item :=
| Text (s : string)
| HelpText.                      (* [parser.format_help()] *)

Inductive err_item :=
| Usage (e : argument_error)     (* [parser.error]: usage and message *)
| Traceback (e : exn).           (* the interpreter, for an uncaught exception *)

Record world := {
  files : string -> option string;   (* the readable files and their content *)
  stdout : list out_item;
  stderr : list err_item;
  calls : list call
}.

Inductive signal :=
| Raise (e : exn)
| SystemExit (code : Z).

(** A computation either returns or stops with a signal; nothing in the
    script catches one, so the monad has no handler. *)
Definition M (X : Type) : Type := world -> world * (signal + X).

Definition ret {X} (x : X) : M X := fun w => (w, inr x).

Definition bind {X Y} (m : M X) (k : X -> M Y) : M Y :=
  fun w =>
    match m w with
    | (w', inr x) => k x w'
    | (w', inl s) => (w', inl s)
    end.

Definition throw {X} (s : signal) : M X := fun w => (w, inl s).

Definition log (c : call) : M unit :=
  fun w => ({| files := files w; stdout := stdout w; stderr := stderr w;
               calls := calls w ++ [c] |}, inr tt).

Definition write_stdout (o : out_item) : M unit :=
  fun w => ({| files := files w; stdout := stdout w ++ [o]; stderr := stderr w;
               calls := calls w |}, inr tt).

Definition write_stderr (e : err_item) : M unit :=
  fun w => ({| files := files w; stdout := stdout w; stderr := stderr w ++ [e];
               calls := calls w |}, inr tt).

(** The result of a call that returns or raises *)
Definition returning {X} (r : exn + X) : M X :=
  match r with
  | inr x => ret x
  | inl e => throw (Raise e)
  end.

(** The result of a call that returns [None] or raises *)
Definition raising (r : option exn) : M unit :=
  match r with
  | None => ret tt
  | Some e => throw (Raise e)
  end.

Declare Scope py_scope.
Delimit Scope py_scope with py.
Notation "x <- m ;; k" := (bind m (fun x => k))
  (at level 61, m at next level, right associativity) : py_scope.
Notation "m ;; k" := (bind m (fun _ => k))
  (at level 61, right associativity) : py_scope.

(** How the interpreter ends a process whose main module ran [m]: status 0
    when it returned, the code of a [SystemExit], and for any other
    exception a traceback on standard error and status 1. *)
Record process := {
  exit_status : Z;
  output : list out_item;
  errors : list err_item;
  made : list call;
  uncaught : option exn;
  files_after : string -> option string
}.

Definition python (m : M unit) (w : world) : process :=
  match m w with
  | (w', inr _) =>
      {| exit_status := 0; output := stdout w'; errors := stderr w';
         made := calls w'; uncaught := None; files_after := files w' |}
  | (w', inl (SystemExit code)) =>
      {| exit_status := code; output := stdout w'; errors := stderr w';
         made := calls w'; uncaught := None; files_after := files w' |}
  | (w', inl (Raise e)) =>
      {| exit_status := 1; output := stdout w';
         errors := stderr w' ++ [Traceback e];
         made := calls w'; uncaught := Some e; files_after := files w' |}
  end.

(** A fresh process: nothing written, nothing called. *)
Definition boot (fs : string -> option string) : world :=
  {| files := fs; stdout := []; stderr := []; calls := [] |}.

End Py.

(** ** References inside a document

    A [$ref] whose string is [#/k1/.../kn] names the value reached from the
    root of a document through the keys [k1 ... kn]. *)

Module Pointer.
Import PyString Py.

(** [document[k1]...[kn]] through dictionaries *)
Fixpoint walk (keys : list string) (document : value) : option value :=
  match keys with
  | [] => Some document
  | k :: keys' =>
      match document with
      | VDict d =>
          match dict_get k d with
          | Some v => walk keys' v
          | None => None
          end
      | _ => None
      end
  end.

(** [s.split(c)] *)
Fixpoint split (c : ascii) (s : string) : list string :=
  match s with
  | EmptyString => [EmptyString]
  | String a s' =>
      if Ascii.eqb a c then EmptyString :: split c s'
      else match split c s' with
           | part :: parts => String a part :: parts
           | [] => [String a EmptyString]
           end
  end.

(** The keys a reference string names, when it points into the document *)
Definition parse_ref (ref : string) : option (list string) :=
  match ref with
  | String "#" (String "/" pointer) => Some (split "/" pointer)
  | _ => None
  end.

End Pointer.

(** ** The script *)

Module Validator.
Import Argparse Py Pointer.
Local Open Scope py_scope.

(** The third-party functions the script imports (lines 19-25) and the
    standard library's JSON decoder. Their code is not part of this
    repository: the script is verified against this interface, for every
    behaviour its functions may have. A call returns, or raises the
    exception given. *)
Class Library := {
  (** the YAML/JSON reader behind [read_from_filename] *)
  yaml_load : string -> exn + value;
  (** the URL [read_from_filename] returns next to the document *)
  file_uri : string -> string;
  (** the decoder behind [json.load] *)
  json_loads : string -> exn + value;
  (** [validate_spec(_, validator=openapi_v30_spec_validator)] *)
  validate_spec : value -> option exn;
  (** [jsonschema.validators.RefResolver] and [RefResolver.from_schema] *)
  RefResolver : Type;
  from_schema : value -> RefResolver;
  (** [validate(instance, schema, cls=OAS30Validator, resolver=_)] *)
  validate : value -> value -> RefResolver -> option exn
}.

Section Script.

Context {lib : Library}.

(** *** What each stage computes *)

(** [open(file)] as far as the script uses it, the text of the file: a path
    that is not a string is a [TypeError], a path that names no readable
    file an [OSError]. *)
Definition contents (fs : string -> option string) (file : argval) : exn + string :=
  match file with
  | Str path =>
      match fs path with
      | Some text => inr text
      | None => inl (OSError path)
      end
  | Strs _ => inl (TypeError "expected str, bytes or os.PathLike object, not list")
  end.

(** [read_from_filename(filename)]: the document and its URL *)
Definition read_spec (fs : string -> option string) (filename : argval)
  : exn + value * string :=
  match filename with
  | Str path =>
      match fs path with
      | Some text =>
          match yaml_load text with
          | inr spec_dict => inr (spec_dict, file_uri path)
          | inl e => inl e
          end
      | None => inl (OSError path)
      end
  | Strs _ => inl (TypeError "stat: path should be string, bytes, os.PathLike or integer, not list")
  end.

(** [json.load(open(file))] *)
Definition load_json (fs : string -> option string) (file : argval) : exn + value :=
  match contents fs file with
  | inr text => json_loads text
  | inl e => inl e
  end.

(** [spec_dict["components"]["schemas"][name]] *)
Definition lookup_schema (spec_dict : value) (name : argval) : exn + value :=
  match getitem spec_dict (Str "components") with
  | inl e => inl e
  | inr components =>
      match getitem components (Str "schemas") with
      | inl e => inl e
      | inr schemas => getitem schemas name
      end
  end.

(** *** The statements of the script, in the process monad *)

Definition with_files {X} (f : (string -> option string) -> exn + X) : M X :=
  fun w => returning (f (files w)) w.

(** line 35 *)
Definition parse_args (argv : list string) : M Namespace :=
  log (call_parse_args argv) ;;
  match Argparse.parse_args argv with
  | Args args => ret args
  | HelpExit => write_stdout HelpText ;; throw (SystemExit 0)
  | ErrorExit e => write_stderr (Usage e) ;; throw (SystemExit 2)
  end.

Definition read_from_filename (filename : argval) : M (value * string) :=
  log (call_read_from_filename filename) ;;
  with_files (fun fs => read_spec fs filename).

Definition open (file : argval) : M string :=
  log (call_open file) ;;
  with_files (fun fs => contents fs file).

Definition json_load (fp : string) : M value :=
  log call_json_load ;;
  returning (json_loads fp).

Definition subscript (container : value) (key : argval) : M value :=
  log (call_getitem container key) ;;
  returning (getitem container key).

Definition print (text : string) : M unit :=
  log (call_print text) ;;
  write_stdout (Text (text ++ String "010" EmptyString)).

(** Lines 37-44, once the arguments are parsed. The arguments of the call
    at line 43 are evaluated left to right before [validate] is entered, so
    the three subscripts come after [from_schema] and before [validate]. *)
Definition body (args : Namespace) : M unit :=
  spec <- read_from_filename (spec args) ;;                         (* 37 *)
  let '(spec_dict, spec_url) := spec in
  fp <- open (Argparse.json args) ;;                                (* 38 *)
  json <- json_load fp ;;
  log (call_validate_spec spec_dict) ;;                             (* 40 *)
  raising (validate_spec spec_dict) ;;
  log (call_from_schema spec_dict) ;;                               (* 42 *)
  let ref_resolver := from_schema spec_dict in
  components <- subscript spec_dict (Str "components") ;;           (* 43 *)
  schemas <- subscript components (Str "schemas") ;;
  schema <- subscript schemas (schema args) ;;
  log (call_validate json schema) ;;
  raising (validate json schema ref_resolver) ;;
  print "OK".                                                       (* 44 *)

Definition script (argv : list string) : M unit :=
  args <- parse_args argv ;;
  body args.

(** One invocation: a fresh process over the file system [fs] with
    [sys.argv[1:] = argv]. *)
Definition main (fs : string -> option string) (argv : list string) : process :=
  python (script argv) (boot fs).

(** *** Observations on an invocation *)

(** The calls that read the file system *)
Definition file_io (c : call) : bool :=
  match c with
  | call_read_from_filename _ | call_open _ | call_json_load => true
  | _ => false
  end.

(** Validation of the specification document against the meta-schema *)
Definition spec_validation (c : call) : bool :=
  match c with
  | call_validate_spec _ => true
  | _ => false
  end.

(** Selecting the named schema *)
Definition schema_lookup (c : call) : bool :=
  match c with
  | call_getitem _ _ => true
  | _ => false
  end.

(** Validating the target document against a schema *)
Definition schema_validation (c : call) : bool :=
  match c with
  | call_validate _ _ => true
  | _ => false
  end.

(** Document validation: the lookup and the validation *)
Definition document_validation (c : call) : bool :=
  schema_lookup c || schema_validation c.

Definition attempted (kind : call -> bool) (p : process) : bool :=
  existsb kind (made p).

(** What [print("OK")] writes *)
Definition OK : list out_item := [Text ("OK" ++ String "010" EmptyString)].

(** The specification document is read and passes the meta-schema. *)
Definition valid_spec (fs : string -> option string) (filename : argval) : bool :=
  match read_spec fs filename with
  | inr (spec_dict, _) =>
      match validate_spec spec_dict with
      | None => true
      | Some _ => false
      end
  | inl _ => false
  end.

(** Every stage of lines 37-43 succeeds. *)
Definition succeeds (fs : string -> option string) (args : Namespace) : bool :=
  match read_spec fs (spec args), load_json fs (Argparse.json args) with
  | inr (spec_dict, _), inr instance =>
      match validate_spec spec_dict, lookup_schema spec_dict (schema args) with
      | None, inr schema =>
          match validate instance schema (from_schema spec_dict) with
          | None => true
          | Some _ => false
          end
      | _, _ => false
      end
  | _, _ => false
  end.

(** Which of [components] and [schemas] a document lacks, if it lacks one *)
Definition missing_section (spec_dict : value) : option string :=
  match spec_dict with
  | VDict d =>
      match dict_get "components" d with
      | None => Some "components"
      | Some (VDict c) =>
          match dict_get "schemas" c with
          | None => Some "schemas"
          | Some _ => None
          end
      | Some _ => None
      end
  | _ => None
  end.

(** The source line of the statement that makes a call *)
Definition line (c : call) : nat :=
  match c with
  | call_parse_args _ => 35
  | call_read_from_filename _ => 37
  | call_open _ | call_json_load => 38
  | call_validate_spec _ => 40
  | call_from_schema _ => 42
  | call_getitem _ _ | call_validate _ _ => 43
  | call_print _ => 44
  end.

(** The lines of the calls of a run in which nothing fails *)
Definition lines : list nat := [35; 37; 38; 38; 40; 42; 43; 43; 43; 43; 44].

End Script.

End Validator.

(** ** A small instance of the library interface

    An executable stand-in for the imported functions, used to run the
    script on concrete inputs. The readers know a handful of documents by
    their text; the meta-schema check asks for the three fields OpenAPI 3.0
    requires; the schema validator implements [$ref] (into the resolver's
    document), [type] and [required]. *)

Module Reference.
Import PyString Argparse Py Pointer Validator.

Definition quote : string := String (ascii_of_nat 34) EmptyString.

(** A valid OpenAPI 3.0 document with two schemas, one a reference *)
Definition petstore_text : string :=
"openapi: 3.0.0
info: {title: Pets, version: 1.0.0}
paths: {}
components:
  schemas:
    Pet:
      type: object
      required: [name]
    Animal:
      $ref: '#/components/schemas/Pet'
".

Definition pet_schema : value :=
  VDict [("type", VStr "object"); ("required", VList [VStr "name"])].

Definition animal_schema : value :=
  VDict [("$ref", VStr "#/components/schemas/Pet")].

Definition petstore : value :=
  VDict [("openapi", VStr "3.0.0");
         ("info", VDict [("title", VStr "Pets"); ("version", VStr "1.0.0")]);
         ("paths", VDict []);
         ("components",
          VDict [("schemas", VDict [("Pet", pet_schema); ("Animal", animal_schema)])])].

(** A valid OpenAPI 3.0 document without [components] *)
Definition minimal_text : string :=
"openapi: 3.0.0
info: {title: Minimal, version: 1.0.0}
paths: {}
".

Definition minimal : value :=
  VDict [("openapi", VStr "3.0.0");
         ("info", VDict [("title", VStr "Minimal"); ("version", VStr "1.0.0")]);
         ("paths", VDict [])].

(** A valid OpenAPI 3.0 document whose [components] has no [schemas] *)
Definition no_schemas_text : string :=
"openapi: 3.0.0
info: {title: Bare, version: 1.0.0}
paths: {}
components: {}
".

Definition no_schemas : value :=
  VDict [("openapi", VStr "3.0.0");
         ("info", VDict [("title", VStr "Bare"); ("version", VStr "1.0.0")]);
         ("paths", VDict []);
         ("components", VDict [])].

(** A document without the [openapi] field: not an OpenAPI document *)
Definition unversioned_text : string :=
"info: {title: Pets, version: 1.0.0}
paths: {}
components:
  schemas:
    Pet: {type: object}
".

Definition unversioned : value :=
  VDict [("info", VDict [("title", VStr "Pets"); ("version", VStr "1.0.0")]);
         ("paths", VDict []);
         ("components", VDict [("schemas", VDict [("Pet", VDict [("type", VStr "object")])])])].

(** The JSON text of an object with a [name], and of a number *)
Definition rex_text : string :=
  "{" ++ quote ++ "name" ++ quote ++ ": " ++ quote ++ "Rex" ++ quote ++ "}".

Definition rex : value := VDict [("name", VStr "Rex")].

Definition number_text : string := "42".

Definition documents : list (string * value) :=
  [(petstore_text, petstore); (minimal_text, minimal);
   (no_schemas_text, no_schemas); (unversioned_text, unversioned);
   (rex_text, rex); (number_text, VInt 42)].

Definition known (text : string) : option value :=
  option_map snd (find (fun '(t, _) => String.eqb t text) documents).

Definition reader (class : string) (text : string) : exn + value :=
  match known text with
  | Some v => inr v
  | None => inl (Exception class "could not parse the text")
  end.

Definition has_key (k : string) (d : list (string * value)) : bool :=
  match dict_get k d with Some _ => true | None => false end.

Definition meta_schema (spec : value) : option exn :=
  match spec with
  | VDict d =>
      match dict_get "openapi" d with
      | Some (VStr version) =>
          if startswith version "3.0." && has_key "info" d && has_key "paths" d
          then None
          else Some (Exception "OpenAPIValidationError" "not an OpenAPI 3.0 document")
      | _ => Some (Exception "OpenAPIValidationError" "'openapi' is a required property")
      end
  | _ => Some (Exception "OpenAPIValidationError" "not an object")
  end.

Definition has_type (t : string) (instance : value) : bool :=
  match instance with
  | VDict _ => String.eqb t "object"
  | VList _ => String.eqb t "array"
  | VStr _ => String.eqb t "string"
  | VInt _ => String.eqb t "integer" || String.eqb t "number"
  | VFloat _ => String.eqb t "number"
  | VBool _ => String.eqb t "boolean"
  | VNone => false
  end.

Definition has_required (names : list value) (instance : value) : bool :=
  match instance with
  | VDict d =>
      forallb (fun n => match n with VStr k => has_key k d | _ => false end) names
  | _ => true
  end.

(** The keywords of a schema without [$ref] *)
Definition keywords (schema : list (string * value)) (instance : value) : option exn :=
  let type_ok :=
    match dict_get "type" schema with
    | Some (VStr t) => has_type t instance
    | _ => true
    end in
  let required_ok :=
    match dict_get "required" schema with
    | Some (VList names) => has_required names instance
    | _ => true
    end in
  if type_ok && required_ok then None
  else Some (Exception "ValidationError" "the instance does not satisfy the schema").

(** Validation under a resolver rooted at [root]. A chain of references is
    followed for [fuel] steps; a longer one is taken as satisfied. *)
Fixpoint validate_under (fuel : nat) (root instance schema : value) : option exn :=
  match fuel with
  | 0 => None
  | S fuel' =>
      match schema with
      | VDict d =>
          match dict_get "$ref" d with
          | Some (VStr ref) =>
              match parse_ref ref with
              | Some keys =>
                  match walk keys root with
                  | Some target => validate_under fuel' root instance target
                  | None => Some (Exception "RefResolutionError" ref)
                  end
              | None => Some (Exception "RefResolutionError" ref)
              end
          | Some _ => Some (Exception "SchemaError" "$ref is not a string")
          | None => keywords d instance
          end
      | _ => Some (Exception "SchemaError" "the schema is not an object")
      end
  end.

#[export] Instance library : Library := {|
  yaml_load := reader "YAMLError";
  file_uri := fun path => ("file://" ++ path)%string;
  json_loads := reader "JSONDecodeError";
  validate_spec := meta_schema;
  RefResolver := value;
  from_schema := fun schema => schema;
  validate := fun instance schema resolver => validate_under 64 resolver instance schema
|}.

(** A directory with the documents above *)
Definition disk (path : string) : option string :=
  if String.eqb path "petstore.yaml" then Some petstore_text
  else if String.eqb path "minimal.yaml" then Some minimal_text
  else if String.eqb path "bare.yaml" then Some no_schemas_text
  else if String.eqb path "unversioned.yaml" then Some unversioned_text
  else if String.eqb path "rex.json" then Some rex_text
  else if String.eqb path "number.json" then Some number_text
  else if String.eqb path "broken.json" then Some "{"
  else None.

Definition run (fs : string -> option string) (argv : list string) : process :=
  main fs argv.

End Reference.

(** * Properties *)

(** ** The command-line parser *)

Section ArgparseFacts.
Import PyString Argparse.

(** A string of decimal digits of any script after [-] is a negative number
    to the parser, hence an argument; a lone [-x] is an option string. *)
Example negative_numbers_are_arguments :
  negative_number "-12" = true
  /\ negative_number "-١٢" = true
  /\ negative_number "-٣.٤" = true
  /\ negative_number "-1." = false
  /\ negative_number "-x" = false
  /\ parse_args ["-١"; "rex.json"; "Pet"]
     = Args {| spec := Str "-١"; json := Str "rex.json"; schema := Str "Pet" |}.
Proof. repeat split. Qed.

Lemma span_dash_arguments toks d r :
  span_dash toks = (d, r) -> count_arguments r = count_arguments toks.
Proof.
  revert d r. induction toks as [|[s p] toks IH]; intros d r H.
  - inversion H. reflexivity.
  - destruct p; simpl in H; try (inversion H; reflexivity).
    destruct (span_dash toks) as [d' r'] eqn:E. inversion H; subst.
    unfold count_arguments. simpl. apply (IH d' r). reflexivity.
Qed.

Lemma match_positional_arguments toks arg_strings rest :
  match_positional toks = Some (arg_strings, rest) ->
  count_arguments toks = S (count_arguments rest).
Proof.
  unfold match_positional.
  destruct (span_dash toks) as [before r1] eqn:E1.
  destruct r1 as [|[s p] r2]; try discriminate.
  destruct p; try discriminate.
  destruct (span_dash r2) as [after r3] eqn:E2.
  intros H. inversion H; subst.
  rewrite <- (span_dash_arguments _ _ _ E1).
  unfold count_arguments at 1. simpl. f_equal.
  symmetry. apply (span_dash_arguments _ _ _ E2).
Qed.

Lemma consume_positionals_counts positionals toks values remaining rest :
  consume_positionals positionals toks = (values, remaining, rest) ->
  List.length values + List.length remaining = List.length positionals
  /\ count_arguments toks = List.length values + count_arguments rest.
Proof.
  revert toks values remaining rest.
  induction positionals as [|dest positionals IH]; intros toks values remaining rest H.
  - inversion H; subst. simpl. split; congruence.
  - simpl in H. destruct (match_positional toks) as [[arg_strings r]|] eqn:E.
    + destruct (consume_positionals positionals r) as [[vs rem] r'] eqn:E'.
      inversion H; subst.
      destruct (IH _ _ _ _ E') as (H1 & H2).
      rewrite (match_positional_arguments _ _ _ E). simpl. lia.
    + inversion H; subst. simpl. lia.
Qed.

Lemma finish_error values positionals extras :
  positionals <> [] \/ extras <> [] ->
  exists e, finish values positionals extras = ErrorExit e.
Proof.
  intros H. unfold finish.
  destruct positionals as [|dest positionals].
  - destruct H as [H|H]; [congruence|].
    destruct values as [|v1 [|v2 [|v3 [|v4 values]]]]; eauto.
    destruct extras; [congruence | eauto].
  - eauto.
Qed.

Definition unknown_option (round : list token * (string * option_tuple)) : Prop :=
  is_help (fst (snd round), O (snd (snd round))) = false.

(** An option string the parser has no action for stays in [extras], and
    extras end in an error. *)
Lemma consume_extras rs : forall last values positionals extras,
  Forall unknown_option rs ->
  rs <> [] \/ extras <> [] ->
  exists e, consume rs last values positionals extras = ErrorExit e.
Proof.
  induction rs as [|[seg [arg_string t]] rs IH]; intros last values positionals extras Hrs H.
  - destruct H as [H|H]; [congruence|]. simpl.
    destruct (consume_positionals positionals last) as [[vs ps] rest].
    apply finish_error. right. destruct extras; [congruence | discriminate].
  - simpl. destruct (consume_positionals positionals seg) as [[vs ps] rest].
    inversion Hrs as [|? ? Hu Hrs']; subst.
    unfold unknown_option in Hu. simpl in Hu.
    destruct t as [[[[]|] option_string] explicit_arg]; [discriminate|].
    simpl. apply IH; [assumption|]. right.
    destruct extras; simpl; [destruct (map fst rest) |]; discriminate.
Qed.

Lemma rounds_spec toks rs last :
  rounds toks = (rs, last) ->
  (filter is_option toks = [] -> rs = [] /\ last = toks)
  /\ (filter is_option toks <> [] -> rs <> [])
  /\ (existsb is_help toks = false -> Forall unknown_option rs).
Proof.
  revert rs last. induction toks as [|[s p] toks IH]; intros rs last H.
  - inversion H; subst. repeat split; auto; congruence.
  - simpl in H. destruct (rounds toks) as [rs' last'] eqn:E.
    destruct (IH _ _ eq_refl) as (H1 & H2 & H3).
    destruct p as [|t|].
    + destruct rs' as [|[seg o] rs']; inversion H; subst; simpl.
      * split; [|split].
        -- intros Hf. destruct (H1 Hf) as [_ ->]. auto.
        -- intros Hf. exact (H2 Hf).
        -- auto.
      * split; [|split].
        -- intros Hf. destruct (H1 Hf). discriminate.
        -- discriminate.
        -- intros Hh. specialize (H3 Hh). inversion H3; subst.
           constructor; assumption.
    + inversion H; subst. simpl. repeat split; try discriminate.
      intros Hh. apply orb_false_iff in Hh as [Hh1 Hh2].
      constructor; [exact Hh1 | auto].
    + destruct rs' as [|[seg o] rs']; inversion H; subst; simpl.
      * split; [|split].
        -- intros Hf. destruct (H1 Hf) as [_ ->]. auto.
        -- intros Hf. exact (H2 Hf).
        -- auto.
      * split; [|split].
        -- intros Hf. destruct (H1 Hf). discriminate.
        -- discriminate.
        -- intros Hh. specialize (H3 Hh). inversion H3; subst.
           constructor; assumption.
Qed.

(** Without a help option, the parser returns the arguments only when it is
    given exactly three arguments and no option string. *)
Lemma parse_args_error argv :
  help_requested argv = false ->
  positional_count argv <> 3 \/ option_count argv <> 0 ->
  exists e, parse_args argv = ErrorExit e.
Proof.
  unfold help_requested, positional_count, option_count, tokens, parse_args.
  destruct (arg_strings_pattern argv) as [e|toks]; [eauto|].
  intros Hhelp Hcount.
  destruct (rounds toks) as [rs last] eqn:E.
  destruct (rounds_spec _ _ _ E) as (H1 & H2 & H3).
  destruct (filter is_option toks) as [|o os] eqn:Ho.
  - destruct (H1 eq_refl) as [-> ->]. cbn [consume].
    destruct Hcount as [Hcount|Hcount]; [|simpl in Hcount; congruence].
    destruct (consume_positionals positional_actions toks) as [[vs ps] rest] eqn:Ec.
    destruct (consume_positionals_counts _ _ _ _ _ Ec) as [Hl Ha].
    simpl in Hl. fold (count_arguments toks) in Hcount.
    apply finish_error.
    destruct ps as [|dest ps]; [right | left; discriminate].
    simpl in Hl. destruct rest as [|tok rest]; [|discriminate].
    unfold count_arguments at 2 in Ha. simpl in Ha. lia.
  - apply consume_extras; [auto|].
    left. apply H2. discriminate.
Qed.

(** The parser returns the arguments only when nothing is left in
    [extras] and no option string was met. *)
Lemma consume_accepts rs : forall last values positionals extras args,
  consume rs last values positionals extras = Args args ->
  rs = [] /\ extras = [].
Proof.
  induction rs as [|[seg [arg_string t]] rs IH]; intros last values positionals extras args H.
  - split; [reflexivity|]. simpl in H.
    destruct (consume_positionals positionals last) as [[vs ps] rest].
    destruct extras as [|x extras]; [reflexivity|].
    destruct (finish_error (values ++ vs) ps ((x :: extras) ++ map fst rest)) as [e He];
      [right; discriminate | congruence].
  - simpl in H. destruct (consume_positionals positionals seg) as [[vs ps] rest].
    destruct (consume_optional t); try discriminate.
    apply IH in H as [_ H]. destruct extras; [destruct (map fst rest)|]; discriminate.
Qed.

(** X1. [parse_args] returns a namespace only for an argument list that
    holds exactly three arguments and no option string. *)
Theorem accepted_arguments_are_three argv args :
  parse_args argv = Args args ->
  positional_count argv = 3 /\ option_count argv = 0.
Proof.
  unfold positional_count, option_count, tokens, parse_args.
  destruct (arg_strings_pattern argv) as [e|toks]; [discriminate|].
  destruct (rounds toks) as [rs last] eqn:E. intros H.
  destruct (rounds_spec _ _ _ E) as (H1 & H2 & _).
  pose proof (consume_accepts _ _ _ _ _ _ H) as [-> _].
  destruct (filter is_option toks) as [|o os] eqn:Ho;
    [|exfalso; apply H2; [discriminate | reflexivity]].
  destruct (H1 eq_refl) as [_ ->]. split; [|reflexivity].
  cbn [consume] in H.
  destruct (consume_positionals positional_actions toks) as [[vs ps] rest] eqn:Ec.
  destruct (consume_positionals_counts _ _ _ _ _ Ec) as [Hl Ha].
  destruct ps as [|dest ps];
    [|destruct (finish_error ([] ++ vs) (dest :: ps) ([] ++ map fst rest)) as [e He];
      [left; discriminate | congruence]].
  destruct rest as [|tok rest];
    [|destruct (finish_error ([] ++ vs) [] ([] ++ map fst (tok :: rest))) as [e He];
      [right; discriminate | congruence]].
  simpl in Hl. unfold count_arguments at 2 in Ha. simpl in Ha. lia.
Qed.

(** An argument string that does not start with [-] is an argument. *)
Lemma plain_is_argument a :
  startswith a "-" = false ->
  String.eqb a "--" = false /\ _parse_optional a = inr None.
Proof.
  destruct a as [|c a]; [split; reflexivity|].
  unfold startswith. simpl.
  destruct (ascii_dec "-" c) as [<-|Hc]; [destruct a; discriminate|].
  intros _. assert (Ascii.eqb c "-" = false) as ->
    by (apply Ascii.eqb_neq; congruence).
  split; reflexivity.
Qed.

(** X2. Three argument strings that do not start with [-] are accepted, and
    become [spec], [json] and [schema] in that order. *)
Theorem three_plain_arguments_are_accepted a b c :
  startswith a "-" = false ->
  startswith b "-" = false ->
  startswith c "-" = false ->
  parse_args [a; b; c]
  = Args {| spec := Str a; json := Str b; schema := Str c |}.
Proof.
  intros Ha Hb Hc.
  apply plain_is_argument in Ha as [Ha1 Ha2].
  apply plain_is_argument in Hb as [Hb1 Hb2].
  apply plain_is_argument in Hc as [Hc1 Hc2].
  unfold parse_args. cbn [arg_strings_pattern].
  rewrite Ha1, Ha2, Hb1, Hb2, Hc1, Hc2. cbn.
  unfold _get_values. cbn. rewrite Ha1, Hb1, Hc1. reflexivity.
Qed.

Lemma two_prefix_chars c s :
  starts_with_two_prefix_chars (String "-" (String c s)) = Ascii.eqb c "-".
Proof.
  destruct c as [[] [] [] [] [] [] [] []]; reflexivity.
Qed.

Lemma take2_cons a b s : take2 (String a (String b s)) = String a (String b EmptyString).
Proof. unfold take2. simpl. destruct s; reflexivity. Qed.

Lemma _get_option_tuples_at_most_one c s :
  (List.length (_get_option_tuples (String "-" (String c s))) <= 1)%nat.
Proof.
  unfold _get_option_tuples. rewrite two_prefix_chars.
  destruct (Ascii.eqb_spec c "-") as [->|Hc].
  - assert (H1 : forall p, startswith "-h" (String "-" (String "-" p)) = false)
      by reflexivity.
    destruct (contains "=" (String "-" (String "-" s))).
    + destruct (split1 "=" (String "-" (String "-" s))) as [p e] eqn:Hsplit.
      cbn [split1] in Hsplit. cbn in Hsplit.
      destruct (split1 "=" s) as [p' e']. injection Hsplit as <- <-.
      cbn [option_string_actions flat_map]. rewrite H1.
      destruct (startswith "--help" _); cbn; lia.
    + cbn [option_string_actions flat_map]. rewrite H1.
      destruct (startswith "--help" _); cbn; lia.
  - cbn [option_string_actions flat_map].
    assert (H2 : String.eqb "--help" (take2 (String "-" (String c s))) = false).
    { rewrite take2_cons. cbn [String.eqb].
      change (Ascii.eqb "-" "-") with true. cbv iota.
      destruct (Ascii.eqb "-" c); reflexivity. }
    assert (H3 : startswith "--help" (String "-" (String c s)) = false).
    { unfold startswith. cbn. destruct (ascii_dec c "-"); [contradiction | reflexivity]. }
    rewrite H2, H3.
    destruct (String.eqb "-h" (take2 (String "-" (String c s)))); [cbn; lia|].
    destruct (startswith "-h" (String "-" (String c s))); cbn; lia.
Qed.

(** The parser of the script never finds an option string ambiguous. *)
Lemma _parse_optional_total arg_string :
  exists r, _parse_optional arg_string = inr r.
Proof.
  unfold _parse_optional. destruct arg_string as [|c s]; [eauto|].
  destruct (Ascii.eqb_spec c "-") as [->|Hc]; cbn [negb]; [|eauto].
  destruct (find_option (String "-" s)); [eauto|].
  destruct (Nat.eqb (String.length (String "-" s)) 1) eqn:Hlen; [eauto|].
  destruct s as [|c s]; [discriminate|].
  match goal with |- context [match ?b with Some t => _ | None => _ end] =>
    destruct b; [eauto|] end.
  pose proof (_get_option_tuples_at_most_one c s) as H.
  destruct (_get_option_tuples (String "-" (String c s))) as [|t [|t' l]];
    [|eauto|simpl in H; lia].
  destruct (negative_number _); [eauto|].
  destruct (contains " " _); eauto.
Qed.

Lemma arg_strings_pattern_total argv :
  exists toks, arg_strings_pattern argv = inr toks.
Proof.
  induction argv as [|arg_string argv [toks IH]]; [simpl; eauto|].
  cbn [arg_strings_pattern]. destruct (String.eqb arg_string "--"); [eauto|].
  destruct (_parse_optional_total arg_string) as [r ->]. rewrite IH. eauto.
Qed.

Lemma arg_strings_pattern_plain pre rest toks :
  Forall (fun s => startswith s "-" = false) pre ->
  arg_strings_pattern rest = inr toks ->
  arg_strings_pattern (pre ++ rest) = inr (map (fun s => (s, A)) pre ++ toks).
Proof.
  intros Hpre Hrest. induction Hpre as [|s pre Hs _ IH]; [exact Hrest|].
  apply plain_is_argument in Hs as [Hs1 Hs2].
  cbn [app arg_strings_pattern map]. now rewrite Hs1, Hs2, IH.
Qed.

Lemma rounds_arguments pre arg_string t rest :
  rounds (map (fun s => (s, A)) pre ++ (arg_string, O t) :: rest)
  = (let '(rs, last) := rounds rest in
     ((map (fun s => (s, A)) pre, (arg_string, t)) :: rs, last)).
Proof.
  induction pre as [|s pre IH]; cbn [map app rounds].
  - reflexivity.
  - rewrite IH. destruct (rounds rest) as [rs last]. reflexivity.
Qed.

Lemma help_option_is_help h :
  In h help_option_strings ->
  String.eqb h "--" = false
  /\ exists t, _parse_optional h = inr (Some t) /\ consume_optional t = Help.
Proof.
  intros H. repeat (destruct H as [<-|H]; [split; [reflexivity | eexists; split; reflexivity]|]).
  destruct H.
Qed.

(** A help option string after arguments that do not start with [-] is
    reached, whatever follows it, and the help action is taken. *)
Lemma help_wins_after_plain_arguments pre h post :
  Forall (fun s => startswith s "-" = false) pre ->
  In h help_option_strings ->
  parse_args (pre ++ h :: post) = HelpExit.
Proof.
  intros Hpre Hh.
  destruct (help_option_is_help h Hh) as (Hdash & t & Hparse & Hhelp).
  destruct (arg_strings_pattern_total post) as [toks Hpost].
  unfold parse_args.
  rewrite (arg_strings_pattern_plain pre (h :: post) ((h, O t) :: toks) Hpre).
  2:{ cbn [arg_strings_pattern]. now rewrite Hdash, Hparse, Hpost. }
  rewrite rounds_arguments. destruct (rounds toks) as [rs last].
  cbn [consume].
  destruct (consume_positionals positional_actions _) as [[vs ps] rest].
  now rewrite Hhelp.
Qed.

(** X6. After a leading [--] three argument strings are accepted whatever
    they start with, and become [spec], [json] and [schema] as they are;
    only a second or third string that is itself [--] is excluded. *)
Theorem double_dash_passes_any_names a b c :
  String.eqb b "--" = false ->
  String.eqb c "--" = false ->
  parse_args ["--"; a; b; c]
  = Args {| spec := Str a; json := Str b; schema := Str c |}.
Proof.
  intros Hb Hc. unfold parse_args. cbn. unfold _get_values. cbn.
  rewrite Hb, Hc. reflexivity.
Qed.

(** Without [--] and without option strings, every argument string is an
    argument. *)
Lemma arg_strings_pattern_arguments argv : forall toks,
  arg_strings_pattern argv = inr toks ->
  ~ In "--" argv ->
  filter is_option toks = [] ->
  toks = map (fun s => (s, A)) argv.
Proof.
  induction argv as [|s argv IH]; intros toks Hp Hdash Hopt.
  - now inversion Hp.
  - cbn [arg_strings_pattern] in Hp.
    destruct (String.eqb_spec s "--") as [->|Hs]; [exfalso; apply Hdash; now left|].
    destruct (_parse_optional s) as [e|r]; [discriminate|].
    destruct (arg_strings_pattern argv) as [e|toks']; [discriminate|].
    injection Hp as <-.
    destruct r as [t|]; [discriminate|].
    cbn [map]. f_equal. apply IH; [reflexivity | | exact Hopt].
    intros H. apply Hdash. now right.
Qed.

(** X7. When the parser returns the arguments and no argument string is
    [--], the command line is exactly three strings and the namespace holds
    them unchanged, in order. *)
Theorem accepted_arguments_are_verbatim argv args :
  parse_args argv = Args args ->
  ~ In "--" argv ->
  exists a b c,
    argv = [a; b; c]
    /\ args = {| spec := Str a; json := Str b; schema := Str c |}.
Proof.
  unfold parse_args. intros H Hdash.
  destruct (arg_strings_pattern argv) as [e|toks] eqn:Hp; [discriminate|].
  destruct (rounds toks) as [rs last] eqn:E.
  destruct (rounds_spec _ _ _ E) as (H1 & H2 & _).
  pose proof (consume_accepts _ _ _ _ _ _ H) as [-> _].
  destruct (filter is_option toks) as [|o os] eqn:Ho;
    [|exfalso; apply H2; [discriminate | reflexivity]].
  destruct (H1 eq_refl) as [_ ->].
  rewrite (arg_strings_pattern_arguments _ _ Hp Hdash Ho) in H.
  assert (Hne : forall s, In s argv -> String.eqb s "--" = false).
  { intros s Hin. apply String.eqb_neq. intros ->. contradiction. }
  destruct argv as [|a [|b [|c [|d argv]]]]; try discriminate.
  exists a, b, c. split; [reflexivity|].
  cbn in H. unfold _get_values in H. cbn in H.
  rewrite !Hne in H by (simpl; auto). now injection H as <-.
Qed.

End ArgparseFacts.

(** ** The script *)

Import Argparse Py Pointer Validator.

Ltac unfold_script :=
  unfold main, script, body, parse_args, read_from_filename, open, json_load,
    subscript, print, with_files, python, boot, bind, log, returning, raising,
    write_stdout, write_stderr, throw, ret, attempted, OK.

(** Run the script as far as the hypotheses decide its branches. *)
Ltac run :=
  unfold_script;
  repeat (cbn;
          match goal with
          | H : ?l = _ |- context [match ?l with _ => _ end] => rewrite H
          end);
  cbn.

(** Close what is left once the script has run: equalities between
    computed values, and cases the hypotheses exclude. *)
Ltac settle :=
  repeat split; intros; try discriminate; try reflexivity; try congruence.

Section Behaviour.
Context {lib : Library}.

Lemma load_json_inv fs file r :
  load_json fs file = r ->
  match r with
  | inr instance =>
      exists text, contents fs file = inr text /\ json_loads text = inr instance
  | inl e =>
      contents fs file = inl e
      \/ exists text, contents fs file = inr text /\ json_loads text = inl e
  end.
Proof.
  unfold load_json. intros <-.
  destruct (contents fs file) as [e|text]; [left; reflexivity|].
  destruct (json_loads text) eqn:E; eauto.
Qed.

Lemma lookup_schema_inv spec_dict name schema :
  lookup_schema spec_dict name = inr schema ->
  exists components schemas,
    getitem spec_dict (Str "components") = inr components
    /\ getitem components (Str "schemas") = inr schemas
    /\ getitem schemas name = inr schema.
Proof.
  unfold lookup_schema.
  destruct (getitem spec_dict (Str "components")) as [e|components]; [discriminate|].
  destruct (getitem components (Str "schemas")) as [e|schemas] eqn:Hs; [discriminate|].
  intros H. exists components, schemas. auto.
Qed.

Lemma walk_cons key keys document v :
  walk (key :: keys) document = Some v <->
  exists inner, getitem document (Str key) = inr inner /\ walk keys inner = Some v.
Proof.
  destruct document; simpl; try (split; [discriminate | intros (? & ? & _); discriminate]).
  destruct (dict_get key d) as [inner|].
  - split; [eauto | intros (? & [= <-] & H); exact H].
  - split; [discriminate | intros (? & ? & _); discriminate].
Qed.

(** The process exits with status 0 and prints [OK] exactly when every
    stage succeeds; otherwise the status is 1 and nothing is printed. The
    file system is left as it was. *)
Lemma status_of_invocation fs argv args :
  Argparse.parse_args argv = Args args ->
  exit_status (main fs argv) = (if succeeds fs args then 0 else 1)%Z
  /\ output (main fs argv) = (if succeeds fs args then OK else [])
  /\ files_after (main fs argv) = fs.
Proof.
  intros Hargs. unfold succeeds, load_json, lookup_schema. run.
  destruct (read_spec fs (spec args)) as [e|[spec_dict spec_url]]; cbn; [auto|].
  destruct (contents fs (json args)) as [e|text]; cbn; [auto|].
  destruct (json_loads text) as [e|instance]; cbn; [auto|].
  destruct (validate_spec spec_dict) as [e|]; cbn; [auto|].
  destruct (getitem spec_dict (Str "components")) as [e|components]; cbn; [auto|].
  destruct (getitem components (Str "schemas")) as [e|schemas]; cbn; [auto|].
  destruct (getitem schemas (schema args)) as [e|schema]; cbn; [auto|].
  destruct (validate instance schema (from_schema spec_dict)) as [e|]; cbn; auto.
Qed.

(** C1. When the specification file is read and passes the OpenAPI 3.0
    meta-schema, the JSON file is loaded, the schema named by the third
    argument is found under [components.schemas], and the validator, with
    the resolver built from the specification document, accepts the JSON
    document, the process prints exactly [OK], writes nothing on standard
    error, and exits with status 0. *)
Theorem conforming_document_prints_OK fs argv args spec_dict spec_url instance schema :
  Argparse.parse_args argv = Args args ->
  read_spec fs (spec args) = inr (spec_dict, spec_url) ->
  validate_spec spec_dict = None ->
  load_json fs (json args) = inr instance ->
  lookup_schema spec_dict (Argparse.schema args) = inr schema ->
  validate instance schema (from_schema spec_dict) = None ->
  exit_status (main fs argv) = 0%Z
  /\ output (main fs argv) = OK
  /\ errors (main fs argv) = []
  /\ uncaught (main fs argv) = None.
Proof.
  intros Hargs Hspec Hvalid Hjson Hschema Hok.
  apply load_json_inv in Hjson as (text & Htext & Hjson).
  apply lookup_schema_inv in Hschema as (components & schemas & Hc & Hs & Hschema).
  run. repeat split.
Qed.

(** C2. When the JSON document violates the named schema, the process
    exits with a non-zero status and prints nothing. Once the specification
    has passed its own validation, the process ends with exactly the
    exception the validator raised: uncaught, unchanged, alone on standard
    error, with status 1. *)
Theorem violating_document_error_propagates
    fs argv args spec_dict spec_url instance schema e :
  Argparse.parse_args argv = Args args ->
  read_spec fs (spec args) = inr (spec_dict, spec_url) ->
  load_json fs (json args) = inr instance ->
  lookup_schema spec_dict (Argparse.schema args) = inr schema ->
  validate instance schema (from_schema spec_dict) = Some e ->
  exit_status (main fs argv) <> 0%Z
  /\ output (main fs argv) = []
  /\ (validate_spec spec_dict = None ->
      uncaught (main fs argv) = Some e
      /\ errors (main fs argv) = [Traceback e]
      /\ exit_status (main fs argv) = 1%Z).
Proof.
  intros Hargs Hspec Hjson Hschema Hbad.
  apply load_json_inv in Hjson as (text & Htext & Hjson).
  apply lookup_schema_inv in Hschema as (components & schemas & Hc & Hs & Hschema).
  destruct (validate_spec spec_dict) as [e'|] eqn:Hvalid; run; settle.
Qed.

(** C3. When the third argument is not a key of the specification's
    [components.schemas] dictionary, the process exits non-zero without
    printing, and the validator is never called: no other schema stands in
    for the absent one. When the lookup is reached (the JSON file loads and
    the specification is valid), the process ends with a [KeyError] on that
    very name and status 1. *)
Theorem absent_schema_name_is_KeyError fs argv args name spec_dict spec_url schemas :
  Argparse.parse_args argv = Args args ->
  Argparse.schema args = Str name ->
  read_spec fs (spec args) = inr (spec_dict, spec_url) ->
  walk ["components"; "schemas"] spec_dict = Some (VDict schemas) ->
  dict_get name schemas = None ->
  exit_status (main fs argv) <> 0%Z
  /\ output (main fs argv) = []
  /\ attempted schema_validation (main fs argv) = false
  /\ (forall instance,
        load_json fs (json args) = inr instance ->
        validate_spec spec_dict = None ->
        uncaught (main fs argv) = Some (KeyError name)
        /\ exit_status (main fs argv) = 1%Z).
Proof.
  intros Hargs Hname Hspec Hwalk Habsent.
  apply walk_cons in Hwalk as (components & Hc & Hwalk).
  apply walk_cons in Hwalk as (schemas' & Hs & [= ->]).
  assert (Hget : getitem (VDict schemas) (Str name) = inl (KeyError name))
    by (simpl; now rewrite Habsent).
  destruct (load_json fs (json args)) as [e|instance] eqn:Hjson;
    apply load_json_inv in Hjson.
  - destruct Hjson as [Hjson|(text & Htext & Hjson)]; run; settle.
  - destruct Hjson as (text & Htext & Hjson).
    destruct (validate_spec spec_dict) as [e|] eqn:Hvalid; run; settle.
Qed.

(** C4. When the specification file is not a valid OpenAPI 3.0 document
    (it cannot be read, or it fails the meta-schema), the process exits
    non-zero, prints nothing, and neither the schema lookup nor the
    validation of the target document is attempted. When the meta-schema
    validation is what fails, its exception ends the process and the call
    of [validate_spec] is the last call made. *)
Theorem invalid_spec_stops_before_document_validation fs argv args :
  Argparse.parse_args argv = Args args ->
  valid_spec fs (spec args) = false ->
  exit_status (main fs argv) <> 0%Z
  /\ output (main fs argv) = []
  /\ attempted document_validation (main fs argv) = false
  /\ (forall spec_dict spec_url instance e,
        read_spec fs (spec args) = inr (spec_dict, spec_url) ->
        load_json fs (json args) = inr instance ->
        validate_spec spec_dict = Some e ->
        uncaught (main fs argv) = Some e
        /\ made (main fs argv)
           = [call_parse_args argv; call_read_from_filename (spec args);
              call_open (json args); call_json_load;
              call_validate_spec spec_dict]).
Proof.
  intros Hargs Hinvalid. unfold valid_spec in Hinvalid.
  destruct (read_spec fs (spec args)) as [e|[spec_dict spec_url]] eqn:Hspec.
  { run; settle. }
  destruct (validate_spec spec_dict) as [e|] eqn:Hvalid; [|discriminate].
  destruct (load_json fs (json args)) as [e'|instance] eqn:Hjson;
    apply load_json_inv in Hjson.
  - destruct Hjson as [Hjson|(text & Htext & Hjson)]; run; settle.
  - destruct Hjson as (text & Htext & Hjson). run; settle.
Qed.

(** C6, amended. The parser holds the three positionals and the help option
    of [argparse]. Unless an argument string is read as the help option,
    every invocation that does not give exactly three arguments and no
    option string (so every one that misses [spec], [json] or [schema]) ends
    in a usage error: the usage message on standard error, nothing on
    standard output, exit status 2, and no call after [parse_args], hence no
    file I/O. *)
Theorem wrong_arguments_are_usage_error fs argv :
  help_requested argv = false ->
  positional_count argv <> 3 \/ option_count argv <> 0 ->
  exists e,
    Argparse.parse_args argv = ErrorExit e
    /\ exit_status (main fs argv) = 2%Z
    /\ output (main fs argv) = []
    /\ errors (main fs argv) = [Usage e]
    /\ made (main fs argv) = [call_parse_args argv]
    /\ attempted file_io (main fs argv) = false.
Proof.
  intros Hhelp Hcount.
  destruct (parse_args_error argv Hhelp Hcount) as [e He].
  exists e. run; settle.
Qed.

(** C7. A specification document that passes the meta-schema validation but
    lacks [components], or lacks [schemas] under it, ends the process with
    an uncaught [KeyError] on the missing key and status 1. The validator is
    never called, and between the meta-schema validation and the failing
    subscript the script only builds the resolver: nothing checks that
    [components.schemas] is there. *)
Theorem missing_section_is_KeyError fs argv args spec_dict spec_url instance key :
  Argparse.parse_args argv = Args args ->
  read_spec fs (spec args) = inr (spec_dict, spec_url) ->
  validate_spec spec_dict = None ->
  load_json fs (json args) = inr instance ->
  missing_section spec_dict = Some key ->
  uncaught (main fs argv) = Some (KeyError key)
  /\ exit_status (main fs argv) = 1%Z
  /\ output (main fs argv) = []
  /\ attempted schema_validation (main fs argv) = false
  /\ exists lookups,
       made (main fs argv)
       = [call_parse_args argv; call_read_from_filename (spec args);
          call_open (json args); call_json_load;
          call_validate_spec spec_dict; call_from_schema spec_dict] ++ lookups
       /\ forallb schema_lookup lookups = true.
Proof.
  intros Hargs Hspec Hvalid Hjson Hmissing.
  apply load_json_inv in Hjson as (text & Htext & Hjson).
  unfold missing_section in Hmissing.
  destruct spec_dict as [| | | | | |d]; try discriminate.
  destruct (dict_get "components" d) as [components|] eqn:Hc.
  - destruct components as [| | | | | |c]; try discriminate.
    destruct (dict_get "schemas" c) as [schemas|] eqn:Hs; [discriminate|].
    injection Hmissing as <-. run; settle.
    eexists. split; [reflexivity|reflexivity].
  - injection Hmissing as <-. run; settle.
    eexists. split; [reflexivity|reflexivity].
Qed.

(** C8, amended. When the JSON file cannot be opened or decoded, the process
    exits non-zero, prints nothing, and the meta-schema validation of the
    specification is never reached. Provided the specification file itself
    was read (line 37 runs before line 38), the process ends with that JSON
    error, whatever the meta-schema validation would have said of the
    document. *)
Theorem json_error_precedes_spec_validation fs argv args e :
  Argparse.parse_args argv = Args args ->
  load_json fs (json args) = inl e ->
  exit_status (main fs argv) <> 0%Z
  /\ output (main fs argv) = []
  /\ attempted spec_validation (main fs argv) = false
  /\ (forall spec_dict spec_url,
        read_spec fs (spec args) = inr (spec_dict, spec_url) ->
        uncaught (main fs argv) = Some e
        /\ errors (main fs argv) = [Traceback e]).
Proof.
  intros Hargs Hjson. apply load_json_inv in Hjson.
  destruct (read_spec fs (spec args)) as [e'|[spec_dict spec_url]] eqn:Hspec.
  { run; settle. }
  destruct Hjson as [Hjson|(text & Htext & Hjson)]; run; settle.
Qed.

(** X4. The validator is called with the value [json.load] returned and the
    schema found under [components.schemas] of the document
    [read_from_filename] returned, after the resolver was built from that
    same document: the script hands the loaded values over as they are,
    whether the validation then succeeds or fails. *)
Theorem validator_receives_loaded_values
    fs argv args spec_dict spec_url instance schema :
  Argparse.parse_args argv = Args args ->
  read_spec fs (spec args) = inr (spec_dict, spec_url) ->
  validate_spec spec_dict = None ->
  load_json fs (json args) = inr instance ->
  lookup_schema spec_dict (Argparse.schema args) = inr schema ->
  exists before after,
    made (main fs argv)
    = before ++ call_from_schema spec_dict :: after
    /\ In (call_validate instance schema) after
    /\ existsb schema_validation before = false.
Proof.
  intros Hargs Hspec Hvalid Hjson Hschema.
  apply load_json_inv in Hjson as (text & Htext & Hjson).
  apply lookup_schema_inv in Hschema as (components & schemas & Hc & Hs & Hschema).
  exists [call_parse_args argv; call_read_from_filename (spec args);
          call_open (json args); call_json_load; call_validate_spec spec_dict].
  destruct (validate instance schema (from_schema spec_dict)) as [e|] eqn:Hrun;
    run; eexists; (split; [reflexivity|]); (split; [|reflexivity]);
    simpl; auto.
Qed.

(** X3. The exit status of an invocation is 0, 1 or 2. *)
Theorem exit_status_is_0_1_or_2 fs argv :
  exit_status (main fs argv) = 0%Z
  \/ exit_status (main fs argv) = 1%Z
  \/ exit_status (main fs argv) = 2%Z.
Proof.
  destruct (Argparse.parse_args argv) as [args| |e] eqn:Hargs.
  - destruct (status_of_invocation fs _ _ Hargs) as (-> & _).
    destruct (succeeds fs args); auto.
  - left. run. reflexivity.
  - right. right. run. reflexivity.
Qed.

(** X5. A help option string ([-h], [--help] or an abbreviation of it) after
    any number of arguments that do not start with [-] ends the process with
    status 0 and the help text on standard output, whatever follows it, and
    no file is read. *)
Theorem help_exits_before_any_file_is_read fs pre h post :
  Forall (fun s => PyString.startswith s "-" = false) pre ->
  In h help_option_strings ->
  exit_status (main fs (pre ++ h :: post)) = 0%Z
  /\ output (main fs (pre ++ h :: post)) = [HelpText]
  /\ errors (main fs (pre ++ h :: post)) = []
  /\ attempted file_io (main fs (pre ++ h :: post)) = false.
Proof.
  intros Hpre Hh.
  pose proof (help_wins_after_plain_arguments pre h post Hpre Hh) as Hargs.
  run; settle.
Qed.

(** X8. [OK] is on standard output only if the arguments were parsed, the
    specification was read and passed the meta-schema, the JSON file was
    loaded, the named schema was found, and the validator accepted the
    document against that schema under the resolver built from the
    specification; the exit status is then 0. *)
Theorem OK_only_after_every_check fs argv :
  output (main fs argv) = OK ->
  exists args spec_dict spec_url instance schema,
    Argparse.parse_args argv = Args args
    /\ read_spec fs (spec args) = inr (spec_dict, spec_url)
    /\ validate_spec spec_dict = None
    /\ load_json fs (json args) = inr instance
    /\ lookup_schema spec_dict (Argparse.schema args) = inr schema
    /\ validate instance schema (from_schema spec_dict) = None
    /\ exit_status (main fs argv) = 0%Z.
Proof.
  destruct (Argparse.parse_args argv) as [args| |e] eqn:Hargs.
  - destruct (status_of_invocation fs _ _ Hargs) as (Hstatus & Hout & _).
    rewrite Hout, Hstatus. unfold succeeds.
    destruct (read_spec fs (spec args)) as [?|[spec_dict spec_url]] eqn:Hspec;
      [discriminate|].
    destruct (load_json fs (json args)) as [?|instance] eqn:Hjson; [discriminate|].
    destruct (validate_spec spec_dict) eqn:Hvalid; [discriminate|].
    destruct (lookup_schema spec_dict (schema args)) as [?|schema] eqn:Hschema;
      [discriminate|].
    destruct (validate instance schema (from_schema spec_dict)) eqn:Hok;
      [discriminate|].
    intros _. exists args, spec_dict, spec_url, instance, schema.
    repeat split; assumption.
  - run. discriminate.
  - run. discriminate.
Qed.

(** X9. Each exit status has its streams. Status 0: nothing on standard
    error, and on standard output [OK] or the help text. Status 1: nothing
    on standard output, and on standard error the traceback of the one
    uncaught exception. Status 2: nothing on standard output, and on
    standard error the usage message of the parser's error. *)
Theorem streams_follow_exit_status fs argv :
  (exit_status (main fs argv) = 0%Z
   /\ errors (main fs argv) = []
   /\ uncaught (main fs argv) = None
   /\ (output (main fs argv) = OK \/ output (main fs argv) = [HelpText]))
  \/ (exit_status (main fs argv) = 1%Z
      /\ output (main fs argv) = []
      /\ exists e, uncaught (main fs argv) = Some e
                   /\ errors (main fs argv) = [Traceback e])
  \/ (exit_status (main fs argv) = 2%Z
      /\ output (main fs argv) = []
      /\ uncaught (main fs argv) = None
      /\ exists e, Argparse.parse_args argv = ErrorExit e
                   /\ errors (main fs argv) = [Usage e]).
Proof.
  destruct (Argparse.parse_args argv) as [args| |e] eqn:Hargs.
  2:{ left. run. auto. }
  2:{ right. right. run. eauto 10. }
  run.
  destruct (read_spec fs (spec args)) as [e|[spec_dict spec_url]]; cbn;
    [right; left; eauto 10|].
  destruct (contents fs (json args)) as [e|text]; cbn; [right; left; eauto 10|].
  destruct (json_loads text) as [e|instance]; cbn; [right; left; eauto 10|].
  destruct (validate_spec spec_dict) as [e|]; cbn; [right; left; eauto 10|].
  destruct (getitem spec_dict (Str "components")) as [e|components]; cbn;
    [right; left; eauto 10|].
  destruct (getitem components (Str "schemas")) as [e|schemas]; cbn;
    [right; left; eauto 10|].
  destruct (getitem schemas (schema args)) as [e|schema]; cbn;
    [right; left; eauto 10|].
  destruct (validate instance schema (from_schema spec_dict)) as [e|]; cbn;
    [right; left; eauto 10 | left; auto].
Qed.

(** X10. The validator is called only after every earlier stage succeeded:
    the specification read and valid, the JSON file loaded, the named schema
    found; and it is called on that JSON value and that schema. *)
Theorem validation_needs_every_earlier_stage fs argv :
  attempted schema_validation (main fs argv) = true ->
  exists args spec_dict spec_url instance schema,
    Argparse.parse_args argv = Args args
    /\ read_spec fs (spec args) = inr (spec_dict, spec_url)
    /\ validate_spec spec_dict = None
    /\ load_json fs (json args) = inr instance
    /\ lookup_schema spec_dict (Argparse.schema args) = inr schema
    /\ In (call_validate instance schema) (made (main fs argv)).
Proof.
  destruct (Argparse.parse_args argv) as [args| |e] eqn:Hargs.
  2:{ run. discriminate. }
  2:{ run. discriminate. }
  run.
  destruct (read_spec fs (spec args)) as [e|[spec_dict spec_url]] eqn:Hspec; cbn;
    [discriminate|].
  destruct (contents fs (json args)) as [e|text] eqn:Htext; cbn; [discriminate|].
  destruct (json_loads text) as [e|instance] eqn:Hjson; cbn; [discriminate|].
  destruct (validate_spec spec_dict) as [e|] eqn:Hvalid; cbn; [discriminate|].
  destruct (getitem spec_dict (Str "components")) as [e|components] eqn:Hc; cbn;
    [discriminate|].
  destruct (getitem components (Str "schemas")) as [e|schemas] eqn:Hs; cbn;
    [discriminate|].
  destruct (getitem schemas (schema args)) as [e|schema] eqn:Hschema; cbn;
    [discriminate|].
  intros _. exists args, spec_dict, spec_url, instance, schema.
  assert (Hload : load_json fs (json args) = inr instance)
    by (unfold load_json; now rewrite Htext).
  assert (Hlookup : lookup_schema spec_dict (Argparse.schema args) = inr schema)
    by (unfold lookup_schema; now rewrite Hc, Hs).
  repeat (split; [assumption || reflexivity|]).
  destruct (validate instance schema (from_schema spec_dict)); cbn; auto 15.
Qed.

(** X11. When the specification file cannot be read or parsed, that
    exception ends the process with status 1, and the call of
    [read_from_filename] is the last call made: the JSON file is not
    opened. *)
Theorem unreadable_spec_stops_before_json fs argv args e :
  Argparse.parse_args argv = Args args ->
  read_spec fs (spec args) = inl e ->
  uncaught (main fs argv) = Some e
  /\ exit_status (main fs argv) = 1%Z
  /\ output (main fs argv) = []
  /\ made (main fs argv)
     = [call_parse_args argv; call_read_from_filename (spec args)].
Proof.
  intros Hargs Hspec. run; settle.
Qed.

(** A subscript by a string raises [KeyError] on that string or
    [TypeError]. *)
Lemma getitem_raises container key e :
  getitem container (Str key) = inl e ->
  e = KeyError key \/ exists message, e = TypeError message.
Proof.
  destruct container; simpl; try (intros [= <-]; eauto).
  destruct (dict_get key d); [discriminate | intros [= <-]; auto].
Qed.

(** X12. When a subscript of line 43 fails, its exception ends the process
    with status 1 before the validator is called; the exception is a
    [KeyError] on [components], [schemas] or the schema name, or a
    [TypeError] when a value on the way is not a dictionary. *)
Theorem failed_lookup_stops_before_validation
    fs argv args name spec_dict spec_url instance e :
  Argparse.parse_args argv = Args args ->
  Argparse.schema args = Str name ->
  read_spec fs (spec args) = inr (spec_dict, spec_url) ->
  validate_spec spec_dict = None ->
  load_json fs (json args) = inr instance ->
  lookup_schema spec_dict (Str name) = inl e ->
  uncaught (main fs argv) = Some e
  /\ exit_status (main fs argv) = 1%Z
  /\ output (main fs argv) = []
  /\ attempted schema_validation (main fs argv) = false
  /\ ((exists key, e = KeyError key /\ In key ["components"; "schemas"; name])
      \/ exists message, e = TypeError message).
Proof.
  intros Hargs Hname Hspec Hvalid Hjson Hlookup.
  apply load_json_inv in Hjson as (text & Htext & Hjson).
  assert (Hkind : (exists key, e = KeyError key /\ In key ["components"; "schemas"; name])
                  \/ exists message, e = TypeError message).
  { unfold lookup_schema in Hlookup.
    destruct (getitem spec_dict (Str "components")) as [e'|components] eqn:Hc.
    { injection Hlookup as ->.
      destruct (getitem_raises _ _ _ Hc) as [->|?]; [left; eexists; split; simpl; eauto | auto]. }
    destruct (getitem components (Str "schemas")) as [e'|schemas] eqn:Hs.
    { injection Hlookup as ->.
      destruct (getitem_raises _ _ _ Hs) as [->|?]; [left; eexists; split; simpl; eauto | auto]. }
    destruct (getitem_raises _ _ _ Hlookup) as [->|?];
      [left; eexists; split; simpl; eauto | auto]. }
  unfold lookup_schema in Hlookup.
  destruct (getitem spec_dict (Str "components")) as [e'|components] eqn:Hc.
  { injection Hlookup as ->. run. repeat (split; [reflexivity|]). exact Hkind. }
  destruct (getitem components (Str "schemas")) as [e'|schemas] eqn:Hs.
  { injection Hlookup as ->. run. repeat (split; [reflexivity|]). exact Hkind. }
  rewrite <- Hname in Hlookup.
  run. repeat (split; [reflexivity|]). exact Hkind.
Qed.

(** X13. The calls of an invocation are made in the order of the source
    lines, none twice: their lines are an initial part of the lines of a run
    in which nothing fails. *)
Theorem calls_follow_source_order fs argv :
  exists n, map line (made (main fs argv)) = firstn n lines.
Proof.
  destruct (Argparse.parse_args argv) as [args| |e] eqn:Hargs.
  2:{ exists 1. run. reflexivity. }
  2:{ exists 1. run. reflexivity. }
  run.
  destruct (read_spec fs (spec args)) as [e|[spec_dict spec_url]]; cbn;
    [exists 2; reflexivity|].
  destruct (contents fs (json args)) as [e|text]; cbn; [exists 3; reflexivity|].
  destruct (json_loads text) as [e|instance]; cbn; [exists 4; reflexivity|].
  destruct (validate_spec spec_dict) as [e|]; cbn; [exists 5; reflexivity|].
  destruct (getitem spec_dict (Str "components")) as [e|components]; cbn;
    [exists 7; reflexivity|].
  destruct (getitem components (Str "schemas")) as [e|schemas]; cbn;
    [exists 8; reflexivity|].
  destruct (getitem schemas (schema args)) as [e|schema]; cbn;
    [exists 9; reflexivity|].
  destruct (validate instance schema (from_schema spec_dict)) as [e|]; cbn;
    [exists 10; reflexivity | exists 11; reflexivity].
Qed.

End Behaviour.

(** ** Runs of the script on the instance *)

Section Runs.
Import Reference.

(** C1 on the instance: a pet with a name against [Pet] *)
Lemma conforming_document_run :
  exit_status (run disk ["petstore.yaml"; "rex.json"; "Pet"]) = 0%Z
  /\ output (run disk ["petstore.yaml"; "rex.json"; "Pet"]) = OK
  /\ errors (run disk ["petstore.yaml"; "rex.json"; "Pet"]) = []
  /\ uncaught (run disk ["petstore.yaml"; "rex.json"; "Pet"]) = None.
Proof.
  eapply (@conforming_document_prints_OK library disk); reflexivity.
Defined.

(** C2 on the instance: a number against [Pet] *)
Lemma violating_document_run :
  uncaught (run disk ["petstore.yaml"; "number.json"; "Pet"])
  = Some (Exception "ValidationError" "the instance does not satisfy the schema")
  /\ exit_status (run disk ["petstore.yaml"; "number.json"; "Pet"]) = 1%Z
  /\ output (run disk ["petstore.yaml"; "number.json"; "Pet"]) = [].
Proof.
  destruct (@violating_document_error_propagates library disk
              ["petstore.yaml"; "number.json"; "Pet"] _ _ _ _ _ _
              eq_refl eq_refl eq_refl eq_refl eq_refl) as (_ & Hout & Hraise).
  destruct (Hraise eq_refl) as (Huncaught & _ & Hstatus).
  repeat split; assumption.
Defined.

(** C3 on the instance: there is no schema [Dog] *)
Lemma absent_schema_name_run :
  uncaught (run disk ["petstore.yaml"; "rex.json"; "Dog"]) = Some (KeyError "Dog")
  /\ exit_status (run disk ["petstore.yaml"; "rex.json"; "Dog"]) = 1%Z
  /\ attempted schema_validation (run disk ["petstore.yaml"; "rex.json"; "Dog"]) = false.
Proof.
  destruct (@absent_schema_name_is_KeyError library disk
              ["petstore.yaml"; "rex.json"; "Dog"] _ "Dog" _ _ _
              eq_refl eq_refl eq_refl eq_refl eq_refl) as (_ & _ & Hnever & Hraise).
  destruct (Hraise _ eq_refl eq_refl) as (Huncaught & Hstatus).
  repeat split; assumption.
Defined.

(** C4 on the instance: a document without [openapi] *)
Lemma invalid_spec_run :
  exit_status (run disk ["unversioned.yaml"; "rex.json"; "Pet"]) <> 0%Z
  /\ attempted document_validation (run disk ["unversioned.yaml"; "rex.json"; "Pet"]) = false
  /\ uncaught (run disk ["unversioned.yaml"; "rex.json"; "Pet"])
     = Some (Exception "OpenAPIValidationError" "'openapi' is a required property").
Proof.
  destruct (@invalid_spec_stops_before_document_validation library disk
              ["unversioned.yaml"; "rex.json"; "Pet"] _ eq_refl eq_refl)
    as (Hstatus & _ & Hnever & Hraise).
  destruct (Hraise _ _ _ _ eq_refl eq_refl eq_refl) as (Huncaught & _).
  repeat split; assumption.
Defined.

(** C6: [-h] names none of the three arguments and the process exits 0. *)
Lemma help_exits_zero :
  positional_count ["-h"] = 0
  /\ Argparse.parse_args ["-h"] = HelpExit
  /\ exit_status (run disk ["-h"]) = 0%Z
  /\ output (run disk ["-h"]) = [HelpText]
  /\ errors (run disk ["-h"]) = [].
Proof. repeat split. Qed.

(** C6, amended, on the instance: the schema name is missing *)
Lemma wrong_arguments_run :
  exit_status (run disk ["petstore.yaml"; "rex.json"]) = 2%Z
  /\ errors (run disk ["petstore.yaml"; "rex.json"])
     = [Usage (arguments_required ["schema"])]
  /\ attempted file_io (run disk ["petstore.yaml"; "rex.json"]) = false.
Proof.
  destruct (@wrong_arguments_are_usage_error library disk
              ["petstore.yaml"; "rex.json"] eq_refl)
    as (e & Hparse & Hstatus & _ & Herrors & _ & Hio).
  { left. discriminate. }
  injection Hparse as <-. repeat split; assumption.
Defined.

(** C7 on the instance: valid documents without [components], without
    [schemas] *)
Lemma missing_section_run :
  uncaught (run disk ["minimal.yaml"; "rex.json"; "Pet"]) = Some (KeyError "components")
  /\ uncaught (run disk ["bare.yaml"; "rex.json"; "Pet"]) = Some (KeyError "schemas").
Proof.
  split.
  - eapply (@missing_section_is_KeyError library disk
              ["minimal.yaml"; "rex.json"; "Pet"]); reflexivity.
  - eapply (@missing_section_is_KeyError library disk
              ["bare.yaml"; "rex.json"; "Pet"]); reflexivity.
Defined.

(** C8: neither file is there; the JSON file cannot be opened, and the
    process fails with the error of the specification file. *)
Lemma spec_read_error_comes_first :
  load_json disk (Str "nowhere.json") = inl (OSError "nowhere.json")
  /\ uncaught (run disk ["nowhere.yaml"; "nowhere.json"; "Pet"])
     = Some (OSError "nowhere.yaml")
  /\ errors (run disk ["nowhere.yaml"; "nowhere.json"; "Pet"])
     = [Traceback (OSError "nowhere.yaml")].
Proof. repeat split. Qed.

(** C8, amended, on the instance: broken JSON next to an invalid document *)
Lemma json_error_run :
  uncaught (run disk ["unversioned.yaml"; "broken.json"; "Pet"])
  = Some (Exception "JSONDecodeError" "could not parse the text")
  /\ attempted spec_validation (run disk ["unversioned.yaml"; "broken.json"; "Pet"]) = false.
Proof.
  destruct (@json_error_precedes_spec_validation library disk
              ["unversioned.yaml"; "broken.json"; "Pet"] _ _ eq_refl eq_refl)
    as (_ & _ & Hnever & Hraise).
  destruct (Hraise _ _ eq_refl) as (Huncaught & _).
  split; assumption.
Defined.

(** X1 on the instance *)
Lemma accepted_arguments_run :
  positional_count ["petstore.yaml"; "rex.json"; "Pet"] = 3
  /\ option_count ["petstore.yaml"; "rex.json"; "Pet"] = 0.
Proof.
  eapply (accepted_arguments_are_three ["petstore.yaml"; "rex.json"; "Pet"]).
  reflexivity.
Defined.

(** X2 on the instance *)
Lemma three_plain_arguments_run :
  Argparse.parse_args ["petstore.yaml"; "rex.json"; "Pet"]
  = Args {| spec := Str "petstore.yaml"; json := Str "rex.json"; schema := Str "Pet" |}.
Proof.
  apply three_plain_arguments_are_accepted; reflexivity.
Defined.

(** X4 on the instance *)
Lemma validator_receives_run :
  In (call_validate rex pet_schema)
     (made (run disk ["petstore.yaml"; "rex.json"; "Pet"])).
Proof.
  destruct (@validator_receives_loaded_values library disk
              ["petstore.yaml"; "rex.json"; "Pet"] _ _ _ _ _
              eq_refl eq_refl eq_refl eq_refl eq_refl)
    as (before & after & Hmade & Hin & _).
  unfold run. rewrite Hmade. apply in_or_app. right. right. exact Hin.
Defined.

(** X5 on the instance: an abbreviation after four arguments *)
Lemma help_exits_run :
  exit_status (run disk ["petstore.yaml"; "rex.json"; "Pet"; "more"; "--he"; "-x"]) = 0%Z
  /\ output (run disk ["petstore.yaml"; "rex.json"; "Pet"; "more"; "--he"; "-x"])
     = [HelpText].
Proof.
  destruct (@help_exits_before_any_file_is_read library disk
              ["petstore.yaml"; "rex.json"; "Pet"; "more"] "--he" ["-x"])
    as (Hstatus & Hout & _).
  - repeat constructor.
  - simpl. auto.
  - split; assumption.
Defined.

(** X6 on the instance: a file named [-h] *)
Lemma double_dash_run :
  Argparse.parse_args ["--"; "-h"; "rex.json"; "Pet"]
  = Args {| spec := Str "-h"; json := Str "rex.json"; schema := Str "Pet" |}.
Proof.
  apply double_dash_passes_any_names; reflexivity.
Defined.

(** X7 on the instance *)
Lemma accepted_verbatim_run :
  exists a b c,
    ["petstore.yaml"; "rex.json"; "Pet"] = [a; b; c]
    /\ {| spec := Str "petstore.yaml"; json := Str "rex.json"; schema := Str "Pet" |}
       = {| spec := Str a; json := Str b; schema := Str c |}.
Proof.
  apply (accepted_arguments_are_verbatim ["petstore.yaml"; "rex.json"; "Pet"]).
  - reflexivity.
  - intros [H|[H|[H|[]]]]; discriminate.
Defined.

(** X8 on the instance *)
Lemma OK_only_run :
  exists args spec_dict spec_url instance schema,
    Argparse.parse_args ["petstore.yaml"; "rex.json"; "Pet"] = Args args
    /\ read_spec disk (spec args) = inr (spec_dict, spec_url)
    /\ validate_spec spec_dict = None
    /\ load_json disk (json args) = inr instance
    /\ lookup_schema spec_dict (Argparse.schema args) = inr schema
    /\ validate instance schema (from_schema spec_dict) = None
    /\ exit_status (run disk ["petstore.yaml"; "rex.json"; "Pet"]) = 0%Z.
Proof.
  apply (@OK_only_after_every_check library disk ["petstore.yaml"; "rex.json"; "Pet"]).
  reflexivity.
Defined.

(** X10 on the instance: the validator was called, and rejected a number *)
Lemma validation_needs_run :
  exists args spec_dict spec_url instance schema,
    Argparse.parse_args ["petstore.yaml"; "number.json"; "Pet"] = Args args
    /\ read_spec disk (spec args) = inr (spec_dict, spec_url)
    /\ validate_spec spec_dict = None
    /\ load_json disk (json args) = inr instance
    /\ lookup_schema spec_dict (Argparse.schema args) = inr schema
    /\ In (call_validate instance schema)
          (made (run disk ["petstore.yaml"; "number.json"; "Pet"])).
Proof.
  apply (@validation_needs_every_earlier_stage library disk
           ["petstore.yaml"; "number.json"; "Pet"]).
  reflexivity.
Defined.

(** X11 on the instance: no specification file, and a JSON file that is
    there *)
Lemma unreadable_spec_run :
  uncaught (run disk ["nowhere.yaml"; "rex.json"; "Pet"]) = Some (OSError "nowhere.yaml")
  /\ attempted file_io (run disk ["nowhere.yaml"; "rex.json"; "Pet"]) = true
  /\ existsb (fun c => match c with call_open _ => true | _ => false end)
             (made (run disk ["nowhere.yaml"; "rex.json"; "Pet"])) = false.
Proof.
  destruct (@unreadable_spec_stops_before_json library disk
              ["nowhere.yaml"; "rex.json"; "Pet"] _ _ eq_refl eq_refl)
    as (Huncaught & _ & _ & Hmade).
  split; [exact Huncaught|].
  unfold attempted, run. rewrite Hmade. split; reflexivity.
Defined.

(** X12 on the instance: [components] without [schemas] *)
Lemma failed_lookup_run :
  uncaught (run disk ["bare.yaml"; "rex.json"; "Pet"]) = Some (KeyError "schemas")
  /\ attempted schema_validation (run disk ["bare.yaml"; "rex.json"; "Pet"]) = false.
Proof.
  destruct (@failed_lookup_stops_before_validation library disk
              ["bare.yaml"; "rex.json"; "Pet"] _ "Pet" _ _ _ _
              eq_refl eq_refl eq_refl eq_refl eq_refl eq_refl)
    as (Huncaught & _ & _ & Hnever & _).
  split; assumption.
Defined.

End Runs.
